(** * Business directory scraper (T.py): harvesting pipeline

    A shallow embedding of the scraping and orchestration code of T.py:
    [fetch_page], [extract_email_from_text], [clean_text], the three
    provider scrapers, [scrape_category_for_region] and [scrape_region].

    Strings are byte strings (UTF-8).  The libraries the script calls
    (requests, BeautifulSoup, re, str methods) are collected in the class
    [Runtime]; every definition and theorem of the development is stated
    for an arbitrary runtime.  The network is an oracle that may answer
    differently depending on the requests made before, and each call of
    [fetch_page] is recorded in a log, the model of the "Fetching: ..."
    lines the script writes.

    A request that fails is the answer [None], whatever the exception:
    at every call of [fetch_page] the handlers around it ([except: pass],
    the handler of the loop body, the handler of the scraper) leave the
    same rows as the tests [if not html] do.  The other library calls
    return normally.  The delays ([time.sleep]) do not show. *)

From Stdlib Require Import Ascii.
From stdpp Require Import gmap strings list.

Local Open Scope string_scope.
Local Open Scope nat_scope.
Local Open Scope list_scope.

(** ** Python values *)

(** Truth value of a Python string: only the empty string is falsy. *)
Definition truthy (s : string) : bool :=
  match s with
  | EmptyString => false
  | String _ _ => true
  end.

(** Truth value of a value that is a string or [None]. *)
Definition truthy_opt (o : option string) : bool :=
  match o with
  | Some s => truthy s
  | None => false
  end.

(** [a or b] where [a] is a Tag or [None]: a Tag is always truthy. *)
Definition or_else {A} (a b : option A) : option A :=
  match a with
  | Some x => Some x
  | None => b
  end.

(** [a or b] on result sets: an empty list is falsy. *)
Definition or_list {A} (a b : list A) : list A :=
  match a with
  | [] => b
  | _ :: _ => a
  end.

(** [x or ""] where [x] is a string or [None]. *)
Definition or_empty (x : option string) : string :=
  match x with
  | Some s => s
  | None => ""
  end.

(** ** urllib.parse.quote_plus, on the UTF-8 bytes of its argument *)

Definition always_safe (c : ascii) : bool :=
  let n := nat_of_ascii c in
  (((65 <=? n) && (n <=? 90)) || ((97 <=? n) && (n <=? 122))
   || ((48 <=? n) && (n <=? 57))
   || (n =? 95) || (n =? 46) || (n =? 45) || (n =? 126))%nat.

Definition hex_digit (n : nat) : ascii :=
  default "0"%char (String.get n "0123456789ABCDEF").

Fixpoint quote_plus (s : string) : string :=
  match s with
  | EmptyString => EmptyString
  | String c rest =>
      if always_safe c then String c (quote_plus rest)
      else if Ascii.eqb c " "%char then String "+"%char (quote_plus rest)
      else
        let n := nat_of_ascii c in
        String "%"%char
          (String (hex_digit (n / 16)%nat)
             (String (hex_digit (n mod 16)%nat) (quote_plus rest)))
  end.

(** ** Queries on parsed markup *)

(** How an attribute or the text of a tag is matched by [find]. *)
Inductive matcher :=
  | IsTrue
  | Equals (s : string)
  | Regex (pattern : string) (ignorecase : bool).

(** The keyword arguments of [find] and [find_all] used by the script. *)
Inductive criterion :=
  | NoCriterion
  | Class_ (c : string)
  | Attr (k : string) (m : matcher)
  | String_ (m : matcher).

Record selector := Sel { sel_name : string; sel_by : criterion }.

#[global] Instance matcher_eq_dec : EqDecision matcher.
Proof. solve_decision. Defined.
#[global] Instance criterion_eq_dec : EqDecision criterion.
Proof. solve_decision. Defined.
#[global] Instance selector_eq_dec : EqDecision selector.
Proof. solve_decision. Defined.

(** ** The runtime: the libraries and the network *)

Class Runtime := {
  (** a parsed document or a tag of it *)
  node : Type;
  (** [BeautifulSoup(html, 'html.parser')] *)
  BeautifulSoup : string → node;
  (** [tag.find(name, ...)]: the first match or [None] *)
  find : node → selector → option node;
  (** [tag.find_all(name, ...)] *)
  find_all : node → selector → list node;
  (** [tag.get_text()] *)
  get_text : node → string;
  (** [tag.get(attribute)] *)
  get : node → string → option string;
  (** [re.findall(pattern, text)], the flag says [re.IGNORECASE] *)
  re_findall : string → bool → string → list string;
  (** [re.sub(pattern, repl, text)] *)
  re_sub : string → string → string → string;
  (** [str.strip] and [str.lower] *)
  strip : string → string;
  lower : string → string;
  (** [requests.get(url).text] after [raise_for_status]; [None] when a
      [RequestException] is raised.  The first argument is the list of
      the URLs requested so far: the answer may change over time. *)
  requests_get : list string → string → option string;
}.

(** ** The fetch monad: state is the log of requested URLs *)

Definition M (A : Type) : Type := list string → A * list string.

Definition ret {A} (a : A) : M A := λ log, (a, log).

Definition bind {A B} (m : M A) (k : A → M B) : M B :=
  λ log, k (m log).1 (m log).2.

Notation "'let*' x ':=' m 'in' k" := (bind m (λ x, k))
  (at level 10, x name, m at level 100, k at level 200).

(** Result and final log of a computation started with log [log]. *)
Definition result {A} (m : M A) (log : list string) : A := (m log).1.
Definition fetched {A} (m : M A) (log : list string) : list string := (m log).2.

(** ** Rows of the output *)

(** The dict appended to [businesses].  [Website] is [None] when Yelp's
    website link carries no href. *)
Record Row := {
  Business_Name : string;
  Email : string;
  Phone : string;
  Website : option string;
  Address : string;
  Category : string;
}.

#[global] Instance Row_eq_dec : EqDecision Row.
Proof. solve_decision. Defined.

(** ** Configuration *)

Definition CATEGORIES : list string := [
  "Clothing & Apparel"; "Electronics & Gadgets"; "Beauty & Personal Care";
  "Jewelry & Accessories"; "Furniture & Décor"; "Legal Services";
  "Accounting & Tax"; "Consulting"; "Real Estate Agency";
  "Financial Planning"; "Hospitals & Clinics"; "Fitness Centers";
  "Restaurants"; "Cafes"; "Catering Services"; "Coaching Institutes"
].

Record region_config := {
  name : string;
  country : string;
  state_code : option string;
  province_code : option string;
  sources : list string;
}.

Definition REGIONS : list (string * region_config) := [
  ("kansas",
   {| name := "Kansas"; country := "United States";
      state_code := Some "KS"; province_code := None;
      sources := [ "https://www.yellowpages.com"; "https://www.yelp.com";
                   "https://www.manta.com" ] |});
  ("nunavut",
   {| name := "Nunavut"; country := "Canada";
      state_code := None; province_code := Some "NU";
      sources := [ "https://www.yellowpages.ca"; "https://www.yelp.ca";
                   "https://www.canada411.ca" ] |})
].

Section Scraper.
Context {rt : Runtime}.

(** ** Helper functions *)

(** [fetch_page(url)]: the request is logged and sent; a failure is
    [None].  The delay and the random user agent do not show in the
    model other than through the oracle. *)
Definition fetch_page (url : string) : M (option string) :=
  λ log, (requests_get log url, log ++ [url]).

Definition email_patterns : list string := [
  "[A-Za-z0-9._%+-]+@[A-Za-z0-9.-]+\.[A-Za-z]{2,}";
  "mailto:([A-Za-z0-9._%+-]+@[A-Za-z0-9.-]+\.[A-Za-z]{2,})"
].

(** The loop over [email_patterns]: the first match of the first pattern
    that matches.  Both patterns have at most one group, so [findall]
    returns strings. *)
Fixpoint first_email (patterns : list string) (text : string) : option string :=
  match patterns with
  | [] => None
  | pattern :: patterns' =>
      match re_findall pattern true text with
      | email :: _ => Some email
      | [] => first_email patterns' text
      end
  end.

Definition extract_email_from_text (text : string) : option string :=
  if truthy text then first_email email_patterns text else None.

Definition clean_text (text : string) : string :=
  if truthy text then re_sub "\s+" " " (strip text) else "".

(** [clean_text(elem.get_text()) if elem else None] *)
Definition text_of (elem : option node) : option string :=
  match elem with
  | Some e => Some (clean_text (get_text e))
  | None => None
  end.

(** [elem.get('href') if elem else None] *)
Definition href_of (elem : option node) : option string :=
  match elem with
  | Some e => get e "href"
  | None => None
  end.

(** ** The loop over the listings of a result page

    [for listing in listings: ...] with [businesses] as accumulator; the
    body either appends one row or goes on to the next listing
    ([continue]), and the loop stops once [businesses] holds 10 rows
    ([break]).  The three scrapers share this shape. *)
Fixpoint for_listings (body : node → M (option Row)) (listings : list node)
    (businesses : list Row) : M (list Row) :=
  match listings with
  | [] => ret businesses
  | listing :: listings' =>
      let* r := body listing in
      match r with
      | None => for_listings body listings' businesses
      | Some row =>
          let businesses := businesses ++ [row] in
          if 10 <=? length businesses then ret businesses
          else for_listings body listings' businesses
      end
  end.

(** ** YellowPages: email of a listing

    The lines shared by [scrape_yellowpages_us] and
    [scrape_yellowpages_ca]: the linked website is fetched when there is
    one and searched for an email; the text of the listing is searched
    when that gave no email. *)
Definition website_email (website : option string) : M (option string) :=
  match website with
  | Some url =>
      if truthy url then
        let* website_html := fetch_page url in
        ret (match website_html with
             | Some html => if truthy html then extract_email_from_text html else None
             | None => None
             end)
      else ret None
  | None => ret None
  end.

Definition listing_email (website : option string) (listing : node) : M (option string) :=
  let* email := website_email website in
  ret (if truthy_opt email then email else extract_email_from_text (get_text listing)).

(** The end of the loop body: [continue] without an email, else the row. *)
Definition yellowpages_row (category business_name : string)
    (phone website address : option string) (email : option string) : option Row :=
  match email with
  | Some email =>
      if truthy email then
        Some {| Business_Name := business_name; Email := email;
                Phone := or_empty phone; Website := Some (or_empty website);
                Address := or_empty address; Category := category |}
      else None
  | None => None
  end.

(** ** scrape_yellowpages_us *)

Definition us_name_elem (listing : node) : option node :=
  or_else (or_else (find listing (Sel "a" (Class_ "business-name")))
                   (find listing (Sel "h2" NoCriterion)))
          (find listing (Sel "h3" NoCriterion)).

Definition us_website (listing : node) : option string :=
  href_of (or_else (find listing (Sel "a" (Class_ "track-visit-website")))
                   (find listing (Sel "a" (Attr "href" IsTrue)))).

Definition us_listing (category : string) (listing : node) : M (option Row) :=
  match us_name_elem listing with
  | None => ret None
  | Some name_elem =>
      let business_name := clean_text (get_text name_elem) in
      if truthy business_name then
        let phone :=
          text_of (or_else (find listing (Sel "div" (Class_ "phones phone primary")))
                           (find listing (Sel "div" (Class_ "phone")))) in
        let website := us_website listing in
        let address :=
          text_of (or_else (find listing (Sel "div" (Class_ "street-address")))
                           (find listing (Sel "span" (Class_ "street-address")))) in
        let* email := listing_email website listing in
        ret (yellowpages_row category business_name phone website address email)
      else ret None
  end.

Definition us_search_url (category location : string) : string :=
  "https://www.yellowpages.com/search?search_terms=" +:+ quote_plus category
  +:+ "&geo_location_terms=" +:+ quote_plus (location +:+ ", United States").

Definition scrape_yellowpages_us (category location : string) : M (list Row) :=
  let* html := fetch_page (us_search_url category location) in
  match html with
  | None => ret []
  | Some html =>
      if truthy html then
        let soup := BeautifulSoup html in
        let listings := find_all soup (Sel "div" (Class_ "info")) in
        for_listings (us_listing category) (take 15 listings) []
      else ret []
  end.

(** ** scrape_yellowpages_ca *)

Definition ca_name_elem (listing : node) : option node :=
  or_else (find listing (Sel "h3" (Class_ "listing__name")))
          (find listing (Sel "a" (Class_ "listing__name--link"))).

Definition ca_website (listing : node) : option string :=
  href_of (or_else (find listing (Sel "a" (Class_ "listing__website")))
                   (find listing (Sel "a" (String_ (Regex "website" true))))).

Definition ca_listing (category : string) (listing : node) : M (option Row) :=
  match ca_name_elem listing with
  | None => ret None
  | Some name_elem =>
      let business_name := clean_text (get_text name_elem) in
      if truthy business_name then
        let phone :=
          text_of (or_else (find listing (Sel "a" (Class_ "phone")))
                           (find listing (Sel "div" (Class_ "listing__phone")))) in
        let website := ca_website listing in
        let address :=
          text_of (or_else (find listing (Sel "div" (Class_ "listing__address")))
                           (find listing (Sel "span" (Class_ "address")))) in
        let* email := listing_email website listing in
        ret (yellowpages_row category business_name phone website address email)
      else ret None
  end.

Definition ca_search_url (category location : string) : string :=
  "https://www.yellowpages.ca/search/si/1/" +:+ quote_plus category
  +:+ "/" +:+ quote_plus (location +:+ ", Canada").

Definition scrape_yellowpages_ca (category location : string) : M (list Row) :=
  let* html := fetch_page (ca_search_url category location) in
  match html with
  | None => ret []
  | Some html =>
      if truthy html then
        let soup := BeautifulSoup html in
        let listings :=
          or_list (find_all soup (Sel "div" (Class_ "listing")))
                  (find_all soup (Sel "div" (Class_ "listing__content"))) in
        for_listings (ca_listing category) (take 15 listings) []
      else ret []
  end.

(** ** scrape_yelp *)

Definition yelp_base_url (is_canada : bool) : string :=
  if is_canada then "https://www.yelp.ca" else "https://www.yelp.com".

Definition yelp_search_url (category location : string) (is_canada : bool) : string :=
  yelp_base_url is_canada +:+ "/search?find_desc=" +:+ quote_plus category
  +:+ "&find_loc=" +:+ quote_plus location.

Definition yelp_name_elem (listing : node) : option node :=
  or_else (find listing (Sel "a" (Class_ "css-1m051bw")))
          (find listing (Sel "span" (Class_ "css-1egxyvc"))).

(** [business_link] when it is truthy, made absolute when it starts with
    a slash; [None] when the name element has no (or an empty) href. *)
Definition yelp_business_link (base_url : string) (name_elem : node) : option string :=
  match get name_elem "href" with
  | Some business_link =>
      if truthy business_link then
        Some (if String.prefix "/" business_link
              then base_url +:+ business_link else business_link)
      else None
  | None => None
  end.

(** The row built from the business page, or [continue] without email. *)
Definition yelp_row (category business_name business_html : string) : option Row :=
  let business_soup := BeautifulSoup business_html in
  match extract_email_from_text business_html with
  | Some email =>
      if truthy email then
        let phone_elem :=
          or_else (find business_soup (Sel "p" (String_ (Regex "\(\d{3}\)" false))))
                  (find business_soup (Sel "span" (String_ (Regex "\d{3}-\d{3}-\d{4}" false)))) in
        let phone := or_empty (text_of phone_elem) in
        let website_elem :=
          or_else (find business_soup (Sel "a" (String_ (Regex "website" true))))
                  (find business_soup (Sel "a" (Attr "href" (Regex "biz_redir" false)))) in
        let website :=
          match website_elem with
          | Some e => get e "href"
          | None => Some ""
          end in
        let address_elem :=
          or_else (find business_soup (Sel "address" NoCriterion))
                  (find business_soup
                     (Sel "p" (String_ (Regex "\d+.*(?:St|Ave|Rd|Blvd|Dr|Ln)" false)))) in
        let address := or_empty (text_of address_elem) in
        Some {| Business_Name := business_name; Email := email;
                Phone := phone; Website := website;
                Address := address; Category := category |}
      else None
  | None => None
  end.

Definition yelp_listing (category base_url : string) (listing : node) : M (option Row) :=
  match yelp_name_elem listing with
  | None => ret None
  | Some name_elem =>
      let business_name := clean_text (get_text name_elem) in
      if truthy business_name then
        match yelp_business_link base_url name_elem with
        | Some business_link =>
            let* business_html := fetch_page business_link in
            ret (match business_html with
                 | Some html =>
                     if truthy html then yelp_row category business_name html
                     else None
                 | None => None
                 end)
        | None => ret None
        end
      else ret None
  end.

Definition scrape_yelp (category location : string) (is_canada : bool) : M (list Row) :=
  let base_url := yelp_base_url is_canada in
  let* html := fetch_page (yelp_search_url category location is_canada) in
  match html with
  | None => ret []
  | Some html =>
      if truthy html then
        let soup := BeautifulSoup html in
        let listings :=
          or_list (find_all soup (Sel "div" (Attr "data-testid" (Equals "serp-ia-card"))))
                  (find_all soup (Sel "li" (Class_ "regular-search-result"))) in
        for_listings (yelp_listing category base_url) (take 15 listings) []
      else ret []
  end.

(** ** Removal of duplicates (scrape_category_for_region, second half) *)

Definition identifier (business : Row) : string * string :=
  (lower (Business_Name business), lower (Email business)).

(** One turn of [for business in all_businesses]; the state is
    [unique_businesses] and the set [seen]. *)
Definition dedup_step (st : list Row * gset (string * string)) (business : Row)
    : list Row * gset (string * string) :=
  let '(unique_businesses, seen) := st in
  if decide (identifier business ∈ seen) then st
  else (unique_businesses ++ [business], {[ identifier business ]} ∪ seen).

Definition dedup_loop (all_businesses : list Row)
    (st : list Row * gset (string * string)) : list Row * gset (string * string) :=
  fold_left dedup_step all_businesses st.

Definition remove_duplicates (all_businesses : list Row) : list Row :=
  (dedup_loop all_businesses ([], ∅)).1.

(** ** scrape_category_for_region *)

Definition is_canada (rc : region_config) : bool :=
  bool_decide (country rc = "Canada").

(** The first source: YellowPages of the region's country. *)
Definition scrape_yellowpages (category : string) (rc : region_config) : M (list Row) :=
  if is_canada rc then scrape_yellowpages_ca category (name rc)
  else scrape_yellowpages_us category (name rc).

Definition scrape_category_for_region (category region_key : string)
    (rc : region_config) : M (list Row) :=
  let location := name rc in
  let* businesses := scrape_yellowpages category rc in
  let all_businesses := businesses in
  let* all_businesses :=
    (if length all_businesses <? 10 then
       let* yelp_businesses := scrape_yelp category location (is_canada rc) in
       ret (all_businesses ++ yelp_businesses)
     else ret all_businesses) in
  let unique_businesses := remove_duplicates all_businesses in
  ret (take 10 unique_businesses).

(** ** scrape_region *)

Definition shortfall_row (category : string) : Row :=
  {| Business_Name := "Less than 10 records available for " +:+ category;
     Email := ""; Phone := ""; Website := Some ""; Address := "";
     Category := category |}.

(** The body of [for category in CATEGORIES]: the rows added to
    [all_results] for one category. *)
Definition category_block (category region_key : string) (rc : region_config)
    : M (list Row) :=
  let* businesses := scrape_category_for_region category region_key rc in
  ret (if length businesses <? 10 then businesses ++ [shortfall_row category]
       else businesses).

Fixpoint for_categories (categories : list string) (region_key : string)
    (rc : region_config) (all_results : list Row) : M (list Row) :=
  match categories with
  | [] => ret all_results
  | category :: categories' =>
      let* businesses := category_block category region_key rc in
      for_categories categories' region_key rc (all_results ++ businesses)
  end.

Definition scrape_region (region_key : string) (rc : region_config) : M (list Row) :=
  for_categories CATEGORIES region_key rc [].

(** ** Notions used by the statements *)

(** A business record in the sense of the specification: a row whose
    name and email are both non-empty. *)
Definition is_business_record (r : Row) : Prop :=
  Business_Name r ≠ "" ∧ Email r ≠ "".

(** The deduplication rule in the words of the specification: going
    through the input in order, a record is kept exactly when no earlier
    record of the input ([earlier]) bears the same identity key. *)
Fixpoint keep_first_per_key (earlier l : list Row) : list Row :=
  match l with
  | [] => []
  | r :: l' =>
      (if decide (identifier r ∈ identifier <$> earlier) then [] else [r])
      ++ keep_first_per_key (earlier ++ [r]) l'
  end.

(** A URL that a scraper takes from a listing: the website link of a
    YellowPages listing or the business link of a Yelp listing. *)
Definition listing_link (url : string) : Prop :=
  ∃ listing : node,
    us_website listing = Some url ∨ ca_website listing = Some url ∨
    ∃ name_elem base_url,
      yelp_name_elem listing = Some name_elem ∧
      yelp_business_link base_url name_elem = Some url.

(** The search page of the first source of a region. *)
Definition yellowpages_search_url (category : string) (rc : region_config) : string :=
  if is_canada rc then ca_search_url category (name rc)
  else us_search_url category (name rc).



(** The deduplication rule for a given key, in the words of the
    specification: going through the input in order, a record is kept
    exactly when no earlier record of the input ([earlier]) has the same
    key. *)
Fixpoint first_per_key {K} `{EqDecision K} (key : Row → K)
    (earlier l : list Row) : list Row :=
  match l with
  | [] => []
  | r :: l' =>
      (if decide (key r ∈ key <$> earlier) then [] else [r])
      ++ first_per_key key (earlier ++ [r]) l'
  end.

(** The listings a scraper goes through, given the answer to the request
    for its search page: the first 15 listings of the page, and none
    when the request failed or the page is empty. *)
Definition us_listings (html : option string) : list node :=
  match html with
  | Some html =>
      if truthy html
      then take 15 (find_all (BeautifulSoup html) (Sel "div" (Class_ "info")))
      else []
  | None => []
  end.

Definition ca_listings (html : option string) : list node :=
  match html with
  | Some html =>
      if truthy html
      then take 15 (or_list (find_all (BeautifulSoup html) (Sel "div" (Class_ "listing")))
                            (find_all (BeautifulSoup html)
                               (Sel "div" (Class_ "listing__content"))))
      else []
  | None => []
  end.

Definition yelp_listings (html : option string) : list node :=
  match html with
  | Some html =>
      if truthy html
      then take 15 (or_list (find_all (BeautifulSoup html)
                               (Sel "div" (Attr "data-testid" (Equals "serp-ia-card"))))
                            (find_all (BeautifulSoup html)
                               (Sel "li" (Class_ "regular-search-result"))))
      else []
  | None => []
  end.



End Scraper.

(** ** A sample runtime

    A small static web used to run the scraper on concrete pages.  A
    parsed tag is given by its text, its attributes and the answers to
    the queries made on it; a page is parsed by looking its text up in
    the table [doms].  Emails are found as the blank-separated words
    that contain an at sign, which is what the first pattern of
    [email_patterns] finds in the texts used below; [lower] lowers the
    ASCII letters. *)
Module Sample.

#[local] Unset Elimination Schemes.
Inductive tag :=
  Tag (text : string) (attrs : list (string * string)) (answers : list (selector * tag)).
#[local] Set Elimination Schemes.

Definition tag_text (t : tag) : string := let 'Tag text _ _ := t in text.
Definition tag_attrs (t : tag) : list (string * string) := let 'Tag _ attrs _ := t in attrs.
Definition tag_answers (t : tag) : list (selector * tag) := let 'Tag _ _ answers := t in answers.

Fixpoint assoc {K V} `{EqDecision K} (k : K) (table : list (K * V)) : option V :=
  match table with
  | [] => None
  | (k', v) :: table' => if decide (k = k') then Some v else assoc k table'
  end.

Definition tag_find_all (t : tag) (sel : selector) : list tag :=
  (filter (λ a, a.1 = sel) (tag_answers t)).*2.

Definition is_space (c : ascii) : bool :=
  let n := nat_of_ascii c in (n =? 32) || ((9 <=? n) && (n <=? 13)).

(** The blank-separated words of a text; [word] is the word being read,
    in reverse. *)
Fixpoint words_from (word : list ascii) (s : string) : list string :=
  let flush := match word with [] => [] | _ => [String.string_of_list_ascii (rev word)] end in
  match s with
  | EmptyString => flush
  | String c rest =>
      if is_space c then flush ++ words_from [] rest
      else words_from (c :: word) rest
  end.

Definition words (s : string) : list string := words_from [] s.

Definition has_at (s : string) : bool :=
  existsb (Ascii.eqb "@"%char) (String.list_ascii_of_string s).

Definition find_emails (pattern : string) (ignorecase : bool) (text : string) : list string :=
  if decide (Some pattern = head email_patterns) then filter has_at (words text) else [].

Definition lower_ascii (c : ascii) : ascii :=
  let n := nat_of_ascii c in
  if (65 <=? n) && (n <=? 90) then ascii_of_nat (n + 32) else c.

Fixpoint lower_string (s : string) : string :=
  match s with
  | EmptyString => EmptyString
  | String c rest => String (lower_ascii c) (lower_string rest)
  end.

(** [strip] followed by the collapse of the blanks: the words joined by
    single spaces.  [strip] alone is the identity here, the texts below
    carry no blanks at their ends. *)
Definition collapse_blanks (pattern repl text : string) : string :=
  String.concat repl (words text).

Definition runtime (web : list (string * string)) (doms : list (string * tag)) : Runtime := {|
  node := tag;
  BeautifulSoup html := default (Tag "" [] []) (assoc html doms);
  find t sel := assoc sel (tag_answers t);
  find_all := tag_find_all;
  get_text := tag_text;
  get t attr := assoc attr (tag_attrs t);
  re_findall := find_emails;
  re_sub := collapse_blanks;
  strip text := text;
  lower := lower_string;
  requests_get _ url := assoc url web;
|}.

(** A YellowPages.com listing without website link:
    [<div class='info'><h2>NAME</h2> EMAIL</div>]. *)
Definition us_listing_html (entry : string * string) : string :=
  "<div class='info'><h2>" +:+ entry.1 +:+ "</h2> " +:+ entry.2 +:+ "</div>".

Definition us_listing_tag (entry : string * string) : tag :=
  Tag (entry.1 +:+ " " +:+ entry.2) [("class", "info")]
      [(Sel "h2" NoCriterion, Tag entry.1 [] [])].

Definition us_page_html (entries : list (string * string)) : string :=
  "<html><body>" +:+ String.concat "" (us_listing_html <$> entries) +:+ "</body></html>".

Definition us_page_tag (entries : list (string * string)) : tag :=
  Tag (String.concat "" ((tag_text ∘ us_listing_tag) <$> entries)) []
      ((λ entry, (Sel "div" (Class_ "info"), us_listing_tag entry)) <$> entries).

Definition kansas : region_config :=
  {| name := "Kansas"; country := "United States";
     state_code := Some "KS"; province_code := None;
     sources := [ "https://www.yellowpages.com"; "https://www.yelp.com";
                  "https://www.manta.com" ] |}.

Definition cafes_url : string :=
  "https://www.yellowpages.com/search?search_terms=Cafes&geo_location_terms=Kansas%2C+United+States".


(** Ten cafes with ten different names. *)
Definition ten_cafes : list (string * string) := [
  ("Cafe 1", "cafe1@example.com"); ("Cafe 2", "cafe2@example.com");
  ("Cafe 3", "cafe3@example.com"); ("Cafe 4", "cafe4@example.com");
  ("Cafe 5", "cafe5@example.com"); ("Cafe 6", "cafe6@example.com");
  ("Cafe 7", "cafe7@example.com"); ("Cafe 8", "cafe8@example.com");
  ("Cafe 9", "cafe9@example.com"); ("Cafe 10", "cafe10@example.com")
].


(** The web where the search page of YellowPages shows [entries] and
    nothing else can be fetched. *)
Definition web_of (entries : list (string * string)) : Runtime :=
  runtime [(cafes_url, us_page_html entries)]
          [(us_page_html entries, us_page_tag entries)].

(** The web where every request fails. *)
Definition offline : Runtime := runtime [] [].




(** Two candidates that differ in case only, and two with an empty
    mandatory field. *)
Definition acme : Row :=
  {| Business_Name := "Acme Co"; Email := "a@acme.com"; Phone := "";
     Website := Some ""; Address := ""; Category := "Consulting" |}.

Definition acme_capitals : Row :=
  {| Business_Name := "ACME CO"; Email := "A@ACME.COM"; Phone := "316-555-0100";
     Website := Some ""; Address := ""; Category := "Consulting" |}.

Definition no_email : Row :=
  {| Business_Name := "Bolt Inc"; Email := ""; Phone := "";
     Website := Some ""; Address := ""; Category := "Consulting" |}.

Definition no_name : Row :=
  {| Business_Name := ""; Email := "office@bolt.example.com"; Phone := "";
     Website := Some ""; Address := ""; Category := "Consulting" |}.

End Sample.

(** * The rest of the script: phones, export, main *)

Section Rest.
Context {rt : Runtime}.

(** ** extract_phone_from_text *)

Definition phone_patterns : list string := [
  "\(?\d{3}\)?[-.\s]?\d{3}[-.\s]?\d{4}";
  "\+1[-.\s]?\(?\d{3}\)?[-.\s]?\d{3}[-.\s]?\d{4}";
  "\d{3}[-.\s]\d{3}[-.\s]\d{4}"
].

(** The loop over [phone_patterns]; no pattern has a group and no flag
    is given. *)
Fixpoint first_phone (patterns : list string) (text : string) : option string :=
  match patterns with
  | [] => None
  | pattern :: patterns' =>
      match re_findall pattern false text with
      | phone :: _ => Some phone
      | [] => first_phone patterns' text
      end
  end.

Definition extract_phone_from_text (text : string) : option string :=
  if truthy text then first_phone phone_patterns text else None.

(** ** save_to_excel and main

    The workbook is written by pandas and openpyxl; the model keeps what
    the script decides: whether a write is attempted, for which file and
    with which rows.  A write that fails is logged by [save_to_excel]
    itself and nothing is raised.  [saved] is the list of the writes
    attempted so far. *)
Definition save_to_excel (data : list Row) (filename : string)
    (saved : list (string * list Row)) : list (string * list Row) :=
  match data with
  | [] => saved
  | _ :: _ => saved ++ [(filename, data)]
  end.

Fixpoint for_regions (regions : list (string * region_config))
    (saved : list (string * list Row)) : M (list (string * list Row)) :=
  match regions with
  | [] => ret saved
  | (region_key, rc) :: regions' =>
      let* region_data := scrape_region region_key rc in
      let filename := region_key +:+ "_businesses.xlsx" in
      for_regions regions' (save_to_excel region_data filename saved)
  end.

Definition main : M (list (string * list Row)) := for_regions REGIONS [].

(** The names the rows of a page give, listing by listing: the cleaned
    text of the name element. *)
Definition listing_name (name_elem : node → option node) (listing : node) : string :=
  or_empty (text_of (name_elem listing)).

End Rest.

(** ** Column widths of the worksheet (save_to_excel)

    A column is the list of its cells, header first; [len_str] is
    [len(str(cell.value))]. *)
Section Widths.
Context {cell : Type} (len_str : cell → nat).

(** [for cell in column]: the running [max_length]. *)
Definition max_length_of (column : list cell) : nat :=
  fold_left (λ max_length c, if max_length <? len_str c then len_str c else max_length)
            column 0.

Definition adjusted_width (column : list cell) : nat :=
  Nat.min (max_length_of column + 2) 50.

End Widths.

(** The characters [quote_plus] may leave in its result. *)
Definition url_safe (c : ascii) : bool :=
  always_safe c || Ascii.eqb c "+"%char || Ascii.eqb c "%"%char.

(** The number of times a character occurs in a string. *)
Fixpoint occurrences (c : ascii) (s : string) : nat :=
  match s with
  | EmptyString => 0
  | String a s' => (if Ascii.eqb a c then 1 else 0) + occurrences c s'
  end.

(** * Properties *)

Section Properties.
Context {rt : Runtime}.

Implicit Types (l : list Row) (r : Row) (log : list string).

Lemma truthy_nonempty (s : string) : truthy s = true ↔ s ≠ "".
Proof. destruct s; simpl; split; congruence. Qed.

Lemma Forall_of_sublist {A} (P : A → Prop) (l1 l2 : list A) :
  l1 `sublist_of` l2 → Forall P l2 → Forall P l1.
Proof.
  induction 1 as [| x l1 l2 _ IH | x l1 l2 _ IH]; intros HP.
  - constructor.
  - apply Forall_cons in HP as [Hx HP]. constructor; auto.
  - apply Forall_cons in HP as [_ HP]. auto.
Qed.

(** ** Removal of duplicates *)

(** The loop with its set [seen] computes [keep_first_per_key] as soon as
    [seen] holds the keys of the records gone through. *)
Lemma dedup_loop_spec l :
  ∀ unique_businesses (seen : gset (string * string)) earlier,
    (∀ k, k ∈ seen ↔ k ∈ identifier <$> earlier) →
    (dedup_loop l (unique_businesses, seen)).1
    = unique_businesses ++ keep_first_per_key earlier l.
Proof.
  induction l as [| r l IH]; intros u seen earlier Hseen; simpl.
  - by rewrite app_nil_r.
  - unfold dedup_loop in *. simpl.
    destruct (decide (identifier r ∈ seen)) as [Hin | Hnin].
    + rewrite decide_True by (by apply Hseen). simpl.
      apply IH. intros k. rewrite fmap_app, elem_of_app, <- Hseen. simpl.
      rewrite list_elem_of_singleton. split; [tauto |].
      intros [? | ->]; done.
    + rewrite decide_False by (by rewrite <- Hseen).
      rewrite (IH (u ++ [r]) ({[identifier r]} ∪ seen) (earlier ++ [r])).
      * by rewrite <- app_assoc.
      * intros k. rewrite fmap_app, elem_of_app, elem_of_union, <- Hseen.
        simpl. rewrite list_elem_of_singleton, elem_of_singleton. tauto.
Qed.

Lemma remove_duplicates_spec l :
  remove_duplicates l = keep_first_per_key [] l.
Proof.
  unfold remove_duplicates. rewrite (dedup_loop_spec l [] ∅ []); [done |].
  intros k. simpl. rewrite elem_of_nil. set_solver.
Qed.

Lemma keep_first_sublist l : ∀ earlier, keep_first_per_key earlier l `sublist_of` l.
Proof.
  induction l as [| r l IH]; intros earlier; simpl; [constructor |].
  case_decide; simpl.
  - apply sublist_cons, IH.
  - apply sublist_skip, IH.
Qed.

(** The keys of the records kept are pairwise different and differ from
    the keys met before. *)
Lemma keep_first_keys l :
  ∀ earlier,
    NoDup (identifier <$> keep_first_per_key earlier l) ∧
    ∀ k, k ∈ identifier <$> keep_first_per_key earlier l → k ∉ identifier <$> earlier.
Proof.
  induction l as [| r l IH]; intros earlier; simpl.
  - split; [constructor | intros k Hk; by apply elem_of_nil in Hk].
  - destruct (IH (earlier ++ [r])) as [Hnd Hfresh].
    assert (Hr : ∀ k, k ∈ identifier <$> keep_first_per_key (earlier ++ [r]) l →
                      k ≠ identifier r ∧ k ∉ identifier <$> earlier).
    { intros k Hk. apply Hfresh in Hk. rewrite fmap_app, elem_of_app in Hk.
      simpl in Hk. rewrite list_elem_of_singleton in Hk. tauto. }
    case_decide as Hin; simpl.
    + split; [done |]. intros k Hk. by apply Hr.
    + split.
      * constructor; [| done]. intros Hk. by apply Hr in Hk as [? _].
      * intros k [-> | Hk]%elem_of_cons; [done |]. by apply Hr.
Qed.

(** A list whose keys are pairwise different and new is kept whole. *)
Lemma keep_first_id l :
  ∀ earlier,
    NoDup (identifier <$> l) →
    (∀ k, k ∈ identifier <$> l → k ∉ identifier <$> earlier) →
    keep_first_per_key earlier l = l.
Proof.
  induction l as [| r l IH]; intros earlier Hnd Hfresh; simpl; [done |].
  simpl in Hnd. apply NoDup_cons in Hnd as [Hr Hnd].
  rewrite decide_False by (apply Hfresh; simpl; left). simpl. f_equal.
  apply IH; [done |]. intros k Hk.
  rewrite fmap_app, elem_of_app. simpl. rewrite list_elem_of_singleton.
  intros [Hk' | ->]; [| done].
  revert Hk'. apply Hfresh. simpl. by right.
Qed.

Lemma remove_duplicates_sublist l : remove_duplicates l `sublist_of` l.
Proof. rewrite remove_duplicates_spec. apply keep_first_sublist. Qed.

Lemma remove_duplicates_NoDup l : NoDup (identifier <$> remove_duplicates l).
Proof. rewrite remove_duplicates_spec. apply keep_first_keys. Qed.

(** ** The scrapers *)

(** What is shown of every row a scraper emits for [category]. *)
Local Abbreviation emitted_for category :=
  (λ r : Row, is_business_record r ∧ Category r = category).

(** The loop keeps what its body guarantees: the rows, the bound of 10
    rows, and the requests made. *)
Lemma for_listings_inv (P : Row → Prop) (Q : string → Prop)
    (body : node → M (option Row)) :
  (∀ listing log,
      (∀ row, (body listing log).1 = Some row → P row) ∧
      ∃ ws, (body listing log).2 = log ++ ws ∧ Forall Q ws) →
  ∀ listings businesses log,
    Forall P businesses → length businesses < 10 →
    Forall P (for_listings body listings businesses log).1 ∧
    length (for_listings body listings businesses log).1 ≤ 10 ∧
    ∃ ws, (for_listings body listings businesses log).2 = log ++ ws ∧ Forall Q ws.
Proof.
  intros Hbody. induction listings as [| listing listings IH];
    intros businesses log HP Hlen; cbn [for_listings].
  - unfold ret; simpl. split; [done |]. split; [lia |]. exists []. by rewrite app_nil_r.
  - unfold bind. destruct (Hbody listing log) as (Hrow & ws & Hlog & HQ).
    destruct ((body listing log).1) as [row |].
    + destruct (10 <=? length (businesses ++ [row])) eqn:Hfull; unfold ret; simpl.
      * split; [apply Forall_app; split; [done | constructor; auto] |].
        split; [rewrite length_app; simpl; lia |]. by exists ws.
      * apply Nat.leb_gt in Hfull.
        destruct (IH (businesses ++ [row]) (body listing log).2) as (H1 & H2 & ws' & H3 & H4).
        { apply Forall_app; split; [done | constructor; auto]. }
        { done. }
        split; [done |]. split; [done |].
        exists (ws ++ ws'). rewrite H3, Hlog, <- app_assoc.
        split; [done | by apply Forall_app].
    + destruct (IH businesses (body listing log).2) as (H1 & H2 & ws' & H3 & H4);
        [done | done |].
      split; [done |]. split; [done |].
      exists (ws ++ ws'). rewrite H3, Hlog, <- app_assoc.
      split; [done | by apply Forall_app].
Qed.

Lemma yellowpages_row_Some category business_name phone website address email row :
  truthy business_name = true →
  yellowpages_row category business_name phone website address email = Some row →
  is_business_record row ∧ Category row = category.
Proof.
  intros Hname. unfold yellowpages_row.
  destruct email as [e |]; [| done]. destruct (truthy e) eqn:He; [| done].
  intros [= <-]. unfold is_business_record. simpl.
  by rewrite <- !truthy_nonempty.
Qed.

(** The requests of the email lookup: the website, when there is one. *)
Lemma listing_email_fetched website listing log :
  (listing_email website listing log).2
  = log ++ (if truthy_opt website then [or_empty website] else []).
Proof.
  unfold listing_email, website_email, bind, ret, fetch_page.
  destruct website as [url |]; simpl; [| by rewrite app_nil_r].
  destruct (truthy url); simpl; [done | by rewrite app_nil_r].
Qed.

Lemma listing_email_links (website : option string) :
  (∀ url, website = Some url → listing_link url) →
  Forall listing_link (if truthy_opt website then [or_empty website] else []).
Proof.
  intros H. destruct website as [url |]; simpl; [| constructor].
  destruct (truthy url); constructor; [by apply H | constructor].
Qed.

Lemma us_listing_inv category listing log :
  (∀ row, (us_listing category listing log).1 = Some row → emitted_for category row) ∧
  ∃ ws, (us_listing category listing log).2 = log ++ ws ∧ Forall listing_link ws.
Proof.
  unfold us_listing.
  destruct (us_name_elem listing) as [name_elem |];
    [| split; [done | exists []; by rewrite app_nil_r]].
  destruct (truthy (clean_text (get_text name_elem))) eqn:Hname;
    [| split; [done | exists []; by rewrite app_nil_r]].
  unfold bind, ret; cbn [fst snd]. split.
  - intros row. by apply yellowpages_row_Some.
  - rewrite listing_email_fetched.
    eexists; split; [done |]. apply listing_email_links.
    intros url Hurl. exists listing. by left.
Qed.

Lemma ca_listing_inv category listing log :
  (∀ row, (ca_listing category listing log).1 = Some row → emitted_for category row) ∧
  ∃ ws, (ca_listing category listing log).2 = log ++ ws ∧ Forall listing_link ws.
Proof.
  unfold ca_listing.
  destruct (ca_name_elem listing) as [name_elem |];
    [| split; [done | exists []; by rewrite app_nil_r]].
  destruct (truthy (clean_text (get_text name_elem))) eqn:Hname;
    [| split; [done | exists []; by rewrite app_nil_r]].
  unfold bind, ret; cbn [fst snd]. split.
  - intros row. by apply yellowpages_row_Some.
  - rewrite listing_email_fetched.
    eexists; split; [done |]. apply listing_email_links.
    intros url Hurl. exists listing. right. by left.
Qed.

Lemma yelp_row_Some category business_name html row :
  truthy business_name = true →
  yelp_row category business_name html = Some row →
  is_business_record row ∧ Category row = category.
Proof.
  intros Hname. unfold yelp_row.
  destruct (extract_email_from_text html) as [e |]; [| done].
  destruct (truthy e) eqn:He; [| done].
  intros [= <-]. unfold is_business_record. simpl.
  by rewrite <- !truthy_nonempty.
Qed.

Lemma yelp_listing_inv category base_url listing log :
  (∀ row, (yelp_listing category base_url listing log).1 = Some row →
          emitted_for category row) ∧
  ∃ ws, (yelp_listing category base_url listing log).2 = log ++ ws ∧
        Forall listing_link ws.
Proof.
  unfold yelp_listing.
  destruct (yelp_name_elem listing) as [name_elem |] eqn:Helem;
    [| split; [done | exists []; by rewrite app_nil_r]].
  destruct (truthy (clean_text (get_text name_elem))) eqn:Hname;
    [| split; [done | exists []; by rewrite app_nil_r]].
  destruct (yelp_business_link base_url name_elem) as [business_link |] eqn:Hlink;
    [| split; [done | exists []; by rewrite app_nil_r]].
  unfold bind, ret, fetch_page. simpl. split.
  - intros row. destruct (requests_get log business_link) as [html |]; [| done].
    destruct (truthy html); [| done]. by apply yelp_row_Some.
  - exists [business_link]. split; [done |]. constructor; [| constructor].
    exists listing. right. right. by exists name_elem, base_url.
Qed.

(** Each scraper returns at most 10 rows, all business records of the
    category, and requests its search page first and then only links
    taken from listings. *)
Lemma scrape_yellowpages_us_inv category location log :
  Forall (emitted_for category) (scrape_yellowpages_us category location log).1 ∧
  length (scrape_yellowpages_us category location log).1 ≤ 10 ∧
  ∃ ws, (scrape_yellowpages_us category location log).2
        = log ++ us_search_url category location :: ws ∧ Forall listing_link ws.
Proof.
  unfold scrape_yellowpages_us, bind, fetch_page; cbn [fst snd].
  destruct (requests_get log _) as [html |]; [destruct (truthy html) |].
  2, 3: unfold ret; simpl; split; [constructor |]; split; [lia |]; by exists [].
  match goal with
  | |- context [for_listings ?body ?ls [] ?log'] =>
      destruct (for_listings_inv (emitted_for category) listing_link body
                  (us_listing_inv category) ls [] log')
        as (H1 & H2 & ws & H3 & H4); [constructor | simpl; lia |]
  end.
  split; [done |]. split; [done |]. exists ws. by rewrite H3, <- app_assoc.
Qed.

Lemma scrape_yellowpages_ca_inv category location log :
  Forall (emitted_for category) (scrape_yellowpages_ca category location log).1 ∧
  length (scrape_yellowpages_ca category location log).1 ≤ 10 ∧
  ∃ ws, (scrape_yellowpages_ca category location log).2
        = log ++ ca_search_url category location :: ws ∧ Forall listing_link ws.
Proof.
  unfold scrape_yellowpages_ca, bind, fetch_page; cbn [fst snd].
  destruct (requests_get log _) as [html |]; [destruct (truthy html) |].
  2, 3: unfold ret; simpl; split; [constructor |]; split; [lia |]; by exists [].
  match goal with
  | |- context [for_listings ?body ?ls [] ?log'] =>
      destruct (for_listings_inv (emitted_for category) listing_link body
                  (ca_listing_inv category) ls [] log')
        as (H1 & H2 & ws & H3 & H4); [constructor | simpl; lia |]
  end.
  split; [done |]. split; [done |]. exists ws. by rewrite H3, <- app_assoc.
Qed.

Lemma scrape_yelp_inv category location canada log :
  Forall (emitted_for category) (scrape_yelp category location canada log).1 ∧
  length (scrape_yelp category location canada log).1 ≤ 10 ∧
  ∃ ws, (scrape_yelp category location canada log).2
        = log ++ yelp_search_url category location canada :: ws ∧
        Forall listing_link ws.
Proof.
  unfold scrape_yelp, bind, fetch_page; cbn [fst snd].
  destruct (requests_get log _) as [html |]; [destruct (truthy html) |].
  2, 3: unfold ret; simpl; split; [constructor |]; split; [lia |]; by exists [].
  match goal with
  | |- context [for_listings ?body ?ls [] ?log'] =>
      destruct (for_listings_inv (emitted_for category) listing_link body
                  (yelp_listing_inv category (yelp_base_url canada)) ls [] log')
        as (H1 & H2 & ws & H3 & H4); [constructor | simpl; lia |]
  end.
  split; [done |]. split; [done |]. exists ws. by rewrite H3, <- app_assoc.
Qed.

Lemma scrape_yellowpages_inv category rc log :
  Forall (emitted_for category) (scrape_yellowpages category rc log).1 ∧
  length (scrape_yellowpages category rc log).1 ≤ 10 ∧
  ∃ ws, (scrape_yellowpages category rc log).2
        = log ++ yellowpages_search_url category rc :: ws ∧ Forall listing_link ws.
Proof.
  unfold scrape_yellowpages, yellowpages_search_url. destruct (is_canada rc).
  - apply scrape_yellowpages_ca_inv.
  - apply scrape_yellowpages_us_inv.
Qed.

(** ** scrape_category_for_region, step by step *)

Lemma scrape_category_for_region_unfold category region_key rc log :
  scrape_category_for_region category region_key rc log
  = if length (result (scrape_yellowpages category rc) log) <? 10 then
      (take 10 (remove_duplicates
                  (result (scrape_yellowpages category rc) log
                   ++ result (scrape_yelp category (name rc) (is_canada rc))
                        (fetched (scrape_yellowpages category rc) log))),
       fetched (scrape_yelp category (name rc) (is_canada rc))
         (fetched (scrape_yellowpages category rc) log))
    else
      (take 10 (remove_duplicates (result (scrape_yellowpages category rc) log)),
       fetched (scrape_yellowpages category rc) log).
Proof.
  unfold scrape_category_for_region, bind, ret, result, fetched; cbn [fst snd].
  by destruct (length (scrape_yellowpages category rc log).1 <? 10).
Qed.

Lemma scrape_category_for_region_inv category region_key rc log :
  Forall (emitted_for category) (result (scrape_category_for_region category region_key rc) log) ∧
  length (result (scrape_category_for_region category region_key rc) log) ≤ 10.
Proof.
  destruct (scrape_yellowpages_inv category rc log) as (H1 & _ & _).
  destruct (scrape_yelp_inv category (name rc) (is_canada rc)
              (fetched (scrape_yellowpages category rc) log)) as (H2 & _ & _).
  unfold result at 1 2. rewrite scrape_category_for_region_unfold.
  unfold result, fetched in *.
  destruct (length _ <? 10); cbn [fst snd].
  - split; [| rewrite length_take; lia].
    apply Forall_take, (Forall_of_sublist _ _ _ (remove_duplicates_sublist _)).
    by apply Forall_app.
  - split; [| rewrite length_take; lia].
    by apply Forall_take, (Forall_of_sublist _ _ _ (remove_duplicates_sublist _)).
Qed.

Lemma category_block_unfold category region_key rc log :
  category_block category region_key rc log
  = (result (scrape_category_for_region category region_key rc) log
     ++ (if length (result (scrape_category_for_region category region_key rc) log) <? 10
         then [shortfall_row category] else []),
     fetched (scrape_category_for_region category region_key rc) log).
Proof.
  unfold category_block, bind, ret, result, fetched; cbn [fst snd].
  destruct (length _ <? 10); [done | by rewrite app_nil_r].
Qed.

Lemma for_categories_inv (P : Row → Prop) region_key rc categories :
  (∀ category log, category ∈ categories →
     Forall P (result (category_block category region_key rc) log)) →
  ∀ all_results log,
    Forall P all_results →
    Forall P (result (for_categories categories region_key rc all_results) log).
Proof.
  induction categories as [| category categories IH]; intros Hblock all_results log Hall.
  - done.
  - unfold result in *. cbn [for_categories]. unfold bind.
    apply IH.
    + intros c log' Hc. apply Hblock. by right.
    + apply Forall_app. split; [done |]. apply Hblock. by left.
Qed.

Lemma keep_first_app l1 : ∀ earlier l2,
  keep_first_per_key earlier (l1 ++ l2)
  = keep_first_per_key earlier l1 ++ keep_first_per_key (earlier ++ l1) l2.
Proof.
  induction l1 as [| a l1 IH]; intros earlier l2; simpl.
  - by rewrite app_nil_r.
  - rewrite IH, <- !app_assoc. done.
Qed.

(** ** The claims on the removal of duplicates *)

Lemma keep_first_is_first_per_key l : ∀ earlier,
  keep_first_per_key earlier l = first_per_key identifier earlier l.
Proof.
  induction l as [| r l IH]; intros earlier; simpl; [done |]. by rewrite IH.
Qed.

(** C7. Deduplication keys each record by the pair of its lowered name
    and its lowered email.  Going through the input in order, the record
    at any position is kept exactly when no record before it has the
    same lowered name and the same lowered email, so the first bearer of
    a key is kept and every later one is dropped; the output is the input
    with the dropped records taken out, in the same order, and the
    lowered (name, email) pairs of its records are pairwise different. *)
Theorem dedup_first_occurrence l :
  let key := λ r : Row, (lower (Business_Name r), lower (Email r)) in
  remove_duplicates l = first_per_key key [] l ∧
  (∀ l1 r l2, l = l1 ++ r :: l2 →
     remove_duplicates l
     = remove_duplicates l1
       ++ (if decide (key r ∈ key <$> l1) then [] else [r])
       ++ first_per_key key (l1 ++ [r]) l2) ∧
  remove_duplicates l `sublist_of` l ∧
  NoDup (key <$> remove_duplicates l).
Proof.
  intros key. subst key.
  change (λ r : Row, (lower (Business_Name r), lower (Email r))) with identifier.
  split; [by rewrite remove_duplicates_spec, keep_first_is_first_per_key |].
  split; [| split; [apply remove_duplicates_sublist | apply remove_duplicates_NoDup]].
  intros l1 r l2 ->.
  rewrite !remove_duplicates_spec, keep_first_app, !keep_first_is_first_per_key.
  done.
Qed.

(** C9. Deduplication is idempotent: applied to its own output it
    returns that output unchanged. *)
Theorem dedup_idempotent l :
  remove_duplicates (remove_duplicates l) = remove_duplicates l.
Proof.
  rewrite (remove_duplicates_spec (remove_duplicates l)).
  apply keep_first_id; [apply remove_duplicates_NoDup |].
  intros k _ Hk. simpl in Hk. by apply elem_of_nil in Hk.
Qed.

(** C3 (amended). The deduplication step does not look at the fields
    for emptiness; it only never adds a record.  So for every input in
    which every candidate has a non-empty name and a non-empty email, the
    output holds no record with an empty name or an empty email. *)
Theorem dedup_keeps_business_records l :
  Forall is_business_record l → Forall is_business_record (remove_duplicates l).
Proof. apply Forall_of_sublist, remove_duplicates_sublist. Qed.

(** ** The claims on the rows of a category *)

(** C1. The block of a category holds the rows returned for the
    category, at most 10 and all of them business records, the first 10
    of the deduplicated candidates; when they are fewer than 10 exactly
    one shortfall row follows them, with the text "Less than 10 records
    available for <category>", and no row follows when they are 10.  The
    shortfall row is no business record. *)
Theorem quota_block category region_key rc log :
  let candidates :=
    result (scrape_yellowpages category rc) log
    ++ (if length (result (scrape_yellowpages category rc) log) <? 10
        then result (scrape_yelp category (name rc) (is_canada rc))
               (fetched (scrape_yellowpages category rc) log)
        else []) in
  let businesses := result (scrape_category_for_region category region_key rc) log in
  let block := result (category_block category region_key rc) log in
  businesses = take 10 (remove_duplicates candidates) ∧
  length businesses ≤ 10 ∧
  Forall is_business_record businesses ∧
  block = businesses
          ++ (if length businesses <? 10 then [shortfall_row category] else []) ∧
  Business_Name (shortfall_row category)
  = "Less than 10 records available for " +:+ category ∧
  Email (shortfall_row category) = "".
Proof.
  intros candidates businesses block.
  destruct (scrape_category_for_region_inv category region_key rc log) as [H1 H2].
  split.
  { subst businesses candidates. unfold result at 1.
    rewrite scrape_category_for_region_unfold.
    destruct (length _ <? 10); [done | by rewrite app_nil_r]. }
  split; [done |]. split.
  { eapply Forall_impl; [exact H1 |]. by intros r [? _]. }
  split; [| done].
  subst block. unfold result at 1. by rewrite category_block_unfold.
Qed.

(** C2. Every row that [scrape_category_for_region] returns has a
    non-empty Business Name and a non-empty Email, and every row of a
    region's result is such a row or the shortfall row of one of the
    categories. *)
Theorem mandatory_fields category region_key rc log :
  Forall is_business_record
    (result (scrape_category_for_region category region_key rc) log) ∧
  Forall (λ r, is_business_record r ∨
               ∃ category', category' ∈ CATEGORIES ∧ r = shortfall_row category')
    (result (scrape_region region_key rc) log).
Proof.
  split.
  - destruct (scrape_category_for_region_inv category region_key rc log) as [H _].
    eapply Forall_impl; [exact H |]. by intros r [? _].
  - unfold scrape_region. apply for_categories_inv; [| constructor].
    intros c log' Hc. unfold result at 1. rewrite category_block_unfold. cbn [fst].
    apply Forall_app. split.
    + destruct (scrape_category_for_region_inv c region_key rc log') as [H _].
      eapply Forall_impl; [exact H |]. intros r [? _]. by left.
    + destruct (length _ <? 10); constructor; [| constructor].
      right. by exists c.
Qed.

(** C10. Every row of the block of a category, business record or
    shortfall row, has that category in its Category field. *)
Theorem category_field category region_key rc log :
  Forall (λ r, Category r = category)
    (result (category_block category region_key rc) log).
Proof.
  unfold result at 1. rewrite category_block_unfold. cbn [fst].
  apply Forall_app. split.
  - destruct (scrape_category_for_region_inv category region_key rc log) as [H _].
    eapply Forall_impl; [exact H |]. by intros r [_ ?].
  - destruct (length _ <? 10); constructor; [done | constructor].
Qed.

(** ** The claims on the requests *)













(** C8. When the first source alone yields at least 10 unique
    candidates, no request follows those of the first source: the second
    source is not queried for the category, which gets its 10 rows from
    the first source. *)
Theorem early_exit category region_key rc log :
  10 ≤ length (remove_duplicates (result (scrape_yellowpages category rc) log)) →
  fetched (category_block category region_key rc) log
  = fetched (scrape_yellowpages category rc) log ∧
  result (category_block category region_key rc) log
  = take 10 (remove_duplicates (result (scrape_yellowpages category rc) log)).
Proof.
  intros Hten.
  pose proof (sublist_length _ _
                (remove_duplicates_sublist (result (scrape_yellowpages category rc) log)))
    as Hraw.
  assert (Hif : (length (result (scrape_yellowpages category rc) log) <? 10) = false)
    by (apply Nat.ltb_ge; lia).
  unfold fetched at 1, result at 1. rewrite category_block_unfold. cbn [fst snd].
  unfold fetched at 1, result at 1 2. rewrite scrape_category_for_region_unfold, Hif.
  cbn [fst snd]. split; [done |].
  rewrite length_take, (proj2 (Nat.ltb_ge _ 10)) by lia.
  by rewrite app_nil_r.
Qed.

End Properties.

(** * The scraper on the sample webs *)

(** Scenario C of the specification: of two candidates whose name and
    email differ in case only, the first one is kept. *)
Example first_seen_wins :
  remove_duplicates (rt := Sample.offline) [Sample.acme; Sample.acme_capitals]
  = [Sample.acme].
Proof. by vm_compute. Qed.

(** C3, counterexample.  Given a candidate without email and one without
    name, the deduplication step returns both. *)
Lemma dedup_passes_empty_fields :
  remove_duplicates (rt := Sample.offline) [Sample.no_email; Sample.no_name]
  = [Sample.no_email; Sample.no_name] ∧
  Email Sample.no_email = "" ∧ Business_Name Sample.no_name = "".
Proof. by vm_compute. Qed.

(** C3, the amended claim at two candidates with name and email. *)
Lemma dedup_keeps_business_records_witness :
  Forall is_business_record [Sample.acme; Sample.acme_capitals] ∧
  Forall is_business_record
    (remove_duplicates (rt := Sample.offline) [Sample.acme; Sample.acme_capitals]).
Proof.
  assert (H : Forall is_business_record [Sample.acme; Sample.acme_capitals])
    by (repeat constructor; done).
  split; [exact H |].
  exact (dedup_keeps_business_records (rt := Sample.offline) _ H).
Defined.




(** C8 at the web where YellowPages shows ten different cafes: the ten
    rows come from YellowPages and Yelp is not requested. *)
Lemma early_exit_witness :
  10 ≤ length (remove_duplicates (rt := Sample.web_of Sample.ten_cafes)
                 (result (scrape_yellowpages (rt := Sample.web_of Sample.ten_cafes)
                            "Cafes" Sample.kansas) [])) ∧
  (fetched (category_block (rt := Sample.web_of Sample.ten_cafes)
              "Cafes" "kansas" Sample.kansas) []
   = fetched (scrape_yellowpages (rt := Sample.web_of Sample.ten_cafes)
                "Cafes" Sample.kansas) [] ∧
   result (category_block (rt := Sample.web_of Sample.ten_cafes)
             "Cafes" "kansas" Sample.kansas) []
   = take 10 (remove_duplicates (rt := Sample.web_of Sample.ten_cafes)
                (result (scrape_yellowpages (rt := Sample.web_of Sample.ten_cafes)
                           "Cafes" Sample.kansas) []))).
Proof.
  split; [vm_compute; lia |].
  apply (early_exit (rt := Sample.web_of Sample.ten_cafes)). vm_compute; lia.
Defined.

(** * Further properties of the script *)

Section More.
Context {rt : Runtime}.

Implicit Types (l : list Row) (r : Row) (log : list string).

(** ** extract_email_from_text and extract_phone_from_text *)

Lemma first_email_Some patterns text e :
  first_email patterns text = Some e ↔
  ∃ ps1 p ps2 rest,
    patterns = ps1 ++ p :: ps2 ∧
    Forall (λ q, re_findall q true text = []) ps1 ∧
    re_findall p true text = e :: rest.
Proof.
  induction patterns as [| a ps IH]; simpl.
  - split; [done |]. intros (ps1 & p & ps2 & rest & Heq & _). by destruct ps1.
  - destruct (re_findall a true text) as [| e0 rest0] eqn:Ha.
    + rewrite IH. split.
      * intros (ps1 & p & ps2 & rest & -> & HF & Hp).
        exists (a :: ps1), p, ps2, rest. split; [done |]. split; [by constructor | done].
      * intros (ps1 & p & ps2 & rest & Heq & HF & Hp).
        destruct ps1 as [| b ps1]; simpl in Heq; injection Heq as -> ->.
        -- congruence.
        -- apply Forall_cons in HF as [_ HF]. by exists ps1, p, ps2, rest.
    + split.
      * intros [= <-]. exists [], a, ps, rest0. split; [done |]. split; [constructor | done].
      * intros (ps1 & p & ps2 & rest & Heq & HF & Hp).
        destruct ps1 as [| b ps1]; simpl in Heq; injection Heq as -> ->.
        -- congruence.
        -- apply Forall_cons in HF as [Hb _]. congruence.
Qed.

Lemma first_email_None patterns text :
  first_email patterns text = None ↔
  Forall (λ q, re_findall q true text = []) patterns.
Proof.
  induction patterns as [| a ps IH]; simpl.
  - split; [constructor | done].
  - destruct (re_findall a true text) as [| e0 rest0] eqn:Ha.
    + rewrite IH. split; [by constructor | by intros [_ ?]%Forall_cons].
    + split; [done |]. intros [Hb _]%Forall_cons. congruence.
Qed.

Lemma first_phone_Some patterns text e :
  first_phone patterns text = Some e ↔
  ∃ ps1 p ps2 rest,
    patterns = ps1 ++ p :: ps2 ∧
    Forall (λ q, re_findall q false text = []) ps1 ∧
    re_findall p false text = e :: rest.
Proof.
  induction patterns as [| a ps IH]; simpl.
  - split; [done |]. intros (ps1 & p & ps2 & rest & Heq & _). by destruct ps1.
  - destruct (re_findall a false text) as [| e0 rest0] eqn:Ha.
    + rewrite IH. split.
      * intros (ps1 & p & ps2 & rest & -> & HF & Hp).
        exists (a :: ps1), p, ps2, rest. split; [done |]. split; [by constructor | done].
      * intros (ps1 & p & ps2 & rest & Heq & HF & Hp).
        destruct ps1 as [| b ps1]; simpl in Heq; injection Heq as -> ->.
        -- congruence.
        -- apply Forall_cons in HF as [_ HF]. by exists ps1, p, ps2, rest.
    + split.
      * intros [= <-]. exists [], a, ps, rest0. split; [done |]. split; [constructor | done].
      * intros (ps1 & p & ps2 & rest & Heq & HF & Hp).
        destruct ps1 as [| b ps1]; simpl in Heq; injection Heq as -> ->.
        -- congruence.
        -- apply Forall_cons in HF as [Hb _]. congruence.
Qed.

Lemma first_phone_None patterns text :
  first_phone patterns text = None ↔
  Forall (λ q, re_findall q false text = []) patterns.
Proof.
  induction patterns as [| a ps IH]; simpl.
  - split; [constructor | done].
  - destruct (re_findall a false text) as [| e0 rest0] eqn:Ha.
    + rewrite IH. split; [by constructor | by intros [_ ?]%Forall_cons].
    + split; [done |]. intros [Hb _]%Forall_cons. congruence.
Qed.

(** X1. [extract_email_from_text] gives [None] exactly when the text is
    empty or no pattern finds anything in it; otherwise it gives the
    first match of the earliest pattern of [email_patterns] that matches,
    the patterns before it finding nothing. *)
Theorem extract_email_first_match text :
  (extract_email_from_text text = None ↔
   text = "" ∨ Forall (λ q, re_findall q true text = []) email_patterns) ∧
  ∀ e, extract_email_from_text text = Some e ↔
       text ≠ "" ∧
       ∃ ps1 p ps2 rest,
         email_patterns = ps1 ++ p :: ps2 ∧
         Forall (λ q, re_findall q true text = []) ps1 ∧
         re_findall p true text = e :: rest.
Proof.
  unfold extract_email_from_text. destruct text as [| c text']; cbn [truthy].
  - split; [split; [by left | done] |].
    intros e. split; [done | by intros [? _]].
  - split.
    + rewrite first_email_None. split; [by right | by intros [? | ?]].
    + intros e. rewrite first_email_Some. split; [by split | by intros [_ ?]].
Qed.

(** X2. [extract_phone_from_text] gives [None] exactly when the text is
    empty or no pattern finds anything in it; otherwise it gives the
    first match of the earliest pattern of [phone_patterns] that matches. *)
Theorem extract_phone_first_match text :
  (extract_phone_from_text text = None ↔
   text = "" ∨ Forall (λ q, re_findall q false text = []) phone_patterns) ∧
  ∀ e, extract_phone_from_text text = Some e ↔
       text ≠ "" ∧
       ∃ ps1 p ps2 rest,
         phone_patterns = ps1 ++ p :: ps2 ∧
         Forall (λ q, re_findall q false text = []) ps1 ∧
         re_findall p false text = e :: rest.
Proof.
  unfold extract_phone_from_text. destruct text as [| c text']; cbn [truthy].
  - split; [split; [by left | done] |].
    intros e. split; [done | by intros [? _]].
  - split.
    + rewrite first_phone_None. split; [by right | by intros [? | ?]].
    + intros e. rewrite first_phone_Some. split; [by split | by intros [_ ?]].
Qed.

(** ** The scrapers: which listings give rows, and how many requests *)

(** The rows of the loop are named after listings picked, in order, from
    the listings gone through. *)
Lemma for_listings_picks (body : node → M (option Row)) (f : node → string) :
  (∀ listing log row, (body listing log).1 = Some row → Business_Name row = f listing) →
  ∀ listings businesses log,
    ∃ picked,
      picked `sublist_of` listings ∧
      Business_Name <$> (for_listings body listings businesses log).1
      = (Business_Name <$> businesses) ++ (f <$> picked).
Proof.
  intros Hbody. induction listings as [| listing listings IH];
    intros businesses log; cbn [for_listings].
  - exists []. split; [done |]. unfold ret; simpl. by rewrite app_nil_r.
  - unfold bind. pose proof (Hbody listing log) as Hrow.
    destruct ((body listing log).1) as [row |].
    + destruct (10 <=? length (businesses ++ [row])); unfold ret; cbn [fst].
      * exists [listing]. split; [apply sublist_skip, sublist_nil_l |].
        rewrite fmap_app. simpl. by rewrite (Hrow row).
      * destruct (IH (businesses ++ [row]) (body listing log).2) as (picked & Hsub & Heq).
        exists (listing :: picked). split; [by apply sublist_skip |].
        rewrite Heq, fmap_app, <- app_assoc. simpl. by rewrite (Hrow row).
    + destruct (IH businesses (body listing log).2) as (picked & Hsub & Heq).
      exists picked. split; [by apply sublist_cons | done].
Qed.

Lemma yellowpages_row_name category business_name phone website address email row :
  yellowpages_row category business_name phone website address email = Some row →
  Business_Name row = business_name.
Proof.
  unfold yellowpages_row. destruct email as [e |]; [| done].
  destruct (truthy e); [| done]. by intros [= <-].
Qed.

Lemma us_listing_name category listing log row :
  (us_listing category listing log).1 = Some row →
  Business_Name row = listing_name us_name_elem listing.
Proof.
  unfold us_listing, listing_name.
  destruct (us_name_elem listing) as [name_elem |]; [| done].
  destruct (truthy (clean_text (get_text name_elem))); [| done].
  unfold bind, ret; cbn [fst]. apply yellowpages_row_name.
Qed.

Lemma ca_listing_name category listing log row :
  (ca_listing category listing log).1 = Some row →
  Business_Name row = listing_name ca_name_elem listing.
Proof.
  unfold ca_listing, listing_name.
  destruct (ca_name_elem listing) as [name_elem |]; [| done].
  destruct (truthy (clean_text (get_text name_elem))); [| done].
  unfold bind, ret; cbn [fst]. apply yellowpages_row_name.
Qed.

Lemma yelp_listing_name category base_url listing log row :
  (yelp_listing category base_url listing log).1 = Some row →
  Business_Name row = listing_name yelp_name_elem listing.
Proof.
  unfold yelp_listing, listing_name.
  destruct (yelp_name_elem listing) as [name_elem |]; [| done].
  destruct (truthy (clean_text (get_text name_elem))); [| done].
  destruct (yelp_business_link base_url name_elem) as [business_link |]; [| done].
  unfold bind, ret, fetch_page; cbn [fst snd].
  destruct (requests_get log business_link) as [html |]; [| done].
  destruct (truthy html); [| done].
  unfold yelp_row. destruct (extract_email_from_text html) as [e |]; [| done].
  destruct (truthy e); [| done]. by intros [= <-].
Qed.

(** X3. The rows of a scraper come only from the listings it goes
    through, which are the first 15 listings of its search page and none
    at all when the page cannot be fetched or is empty; and they keep the
    order of the page: their names are the cleaned names of listings
    picked in order among these.  A listing after the fifteenth never
    gives a row, and a page that did not come back gives no row. *)
Theorem rows_follow_page category location canada log :
  (∃ picked,
     picked `sublist_of` us_listings (requests_get log (us_search_url category location)) ∧
     Business_Name <$> result (scrape_yellowpages_us category location) log
     = listing_name us_name_elem <$> picked) ∧
  (∃ picked,
     picked `sublist_of` ca_listings (requests_get log (ca_search_url category location)) ∧
     Business_Name <$> result (scrape_yellowpages_ca category location) log
     = listing_name ca_name_elem <$> picked) ∧
  (∃ picked,
     picked `sublist_of`
       yelp_listings (requests_get log (yelp_search_url category location canada)) ∧
     Business_Name <$> result (scrape_yelp category location canada) log
     = listing_name yelp_name_elem <$> picked).
Proof.
  unfold result. split; [| split].
  - unfold scrape_yellowpages_us, us_listings, bind, fetch_page; cbn [fst snd].
    destruct (requests_get log _) as [html |]; [destruct (truthy html) |].
    2, 3: exists []; split; [apply sublist_nil_l | done].
    match goal with
    | |- context [for_listings ?body ?ls [] ?log'] =>
        destruct (for_listings_picks body (listing_name us_name_elem)
                    (us_listing_name category) ls [] log') as (picked & Hsub & Heq)
    end.
    by exists picked.
  - unfold scrape_yellowpages_ca, ca_listings, bind, fetch_page; cbn [fst snd].
    destruct (requests_get log _) as [html |]; [destruct (truthy html) |].
    2, 3: exists []; split; [apply sublist_nil_l | done].
    match goal with
    | |- context [for_listings ?body ?ls [] ?log'] =>
        destruct (for_listings_picks body (listing_name ca_name_elem)
                    (ca_listing_name category) ls [] log') as (picked & Hsub & Heq)
    end.
    by exists picked.
  - unfold scrape_yelp, yelp_listings, bind, fetch_page; cbn [fst snd].
    destruct (requests_get log _) as [html |]; [destruct (truthy html) |].
    2, 3: exists []; split; [apply sublist_nil_l | done].
    match goal with
    | |- context [for_listings ?body ?ls [] ?log'] =>
        destruct (for_listings_picks body (listing_name yelp_name_elem)
                    (yelp_listing_name category (yelp_base_url canada)) ls [] log')
          as (picked & Hsub & Heq)
    end.
    by exists picked.
Qed.

(** A search page that cannot be fetched, or is empty, gives no row and
    costs one request. *)
Lemma scrape_yellowpages_failed category rc log :
  truthy_opt (requests_get log (yellowpages_search_url category rc)) = false →
  scrape_yellowpages category rc log
  = ([], log ++ [yellowpages_search_url category rc]).
Proof.
  unfold scrape_yellowpages, yellowpages_search_url.
  destruct (is_canada rc); intros H.
  - unfold scrape_yellowpages_ca, bind, fetch_page, ret; cbn [fst snd].
    destruct (requests_get log _) as [html |]; [| done].
    simpl in H. by rewrite H.
  - unfold scrape_yellowpages_us, bind, fetch_page, ret; cbn [fst snd].
    destruct (requests_get log _) as [html |]; [| done].
    simpl in H. by rewrite H.
Qed.

Lemma scrape_yelp_failed category location canada log :
  truthy_opt (requests_get log (yelp_search_url category location canada)) = false →
  scrape_yelp category location canada log
  = ([], log ++ [yelp_search_url category location canada]).
Proof.
  intros H. unfold scrape_yelp, bind, fetch_page, ret; cbn [fst snd].
  destruct (requests_get log _) as [html |]; [| done].
  simpl in H. by rewrite H.
Qed.

(** X4. When neither search page can be fetched (the request fails or
    the page is empty), the category costs exactly two requests, the
    YellowPages search and then the Yelp search, and its block is the
    shortfall row alone. *)
Theorem unreachable_sources_give_shortfall category region_key rc log :
  truthy_opt (requests_get log (yellowpages_search_url category rc)) = false →
  truthy_opt (requests_get (log ++ [yellowpages_search_url category rc])
                (yelp_search_url category (name rc) (is_canada rc))) = false →
  category_block category region_key rc log
  = ([shortfall_row category],
     log ++ [yellowpages_search_url category rc;
             yelp_search_url category (name rc) (is_canada rc)]).
Proof.
  intros Hyp Hyelp.
  rewrite category_block_unfold. unfold result, fetched.
  rewrite scrape_category_for_region_unfold. unfold result, fetched.
  rewrite (scrape_yellowpages_failed _ _ _ Hyp). cbn [fst snd length].
  replace (0 <? 10) with true by done.
  rewrite (scrape_yelp_failed _ _ _ _ Hyelp). cbn [fst snd].
  by rewrite <- app_assoc.
Qed.

(** ** The number of requests *)

Local Ltac no_request :=
  exists []; unfold ret; simpl; rewrite app_nil_r; split; [done | lia].

Lemma for_listings_requests (body : node → M (option Row)) :
  (∀ listing log, ∃ ws, (body listing log).2 = log ++ ws ∧ length ws ≤ 1) →
  ∀ listings businesses log,
    ∃ ws, (for_listings body listings businesses log).2 = log ++ ws ∧
          length ws ≤ length listings.
Proof.
  intros Hbody. induction listings as [| listing listings IH];
    intros businesses log; cbn [for_listings].
  - no_request.
  - unfold bind. destruct (Hbody listing log) as (ws & Hlog & Hlen).
    destruct ((body listing log).1) as [row |].
    + destruct (10 <=? length (businesses ++ [row])); unfold ret; cbn [snd].
      * exists ws. split; [done | simpl; lia].
      * destruct (IH (businesses ++ [row]) (body listing log).2) as (ws' & H1 & H2).
        exists (ws ++ ws'). rewrite H1, Hlog, <- app_assoc, length_app.
        split; [done | simpl; lia].
    + destruct (IH businesses (body listing log).2) as (ws' & H1 & H2).
      exists (ws ++ ws'). rewrite H1, Hlog, <- app_assoc, length_app.
      split; [done | simpl; lia].
Qed.

Lemma us_listing_requests category listing log :
  ∃ ws, (us_listing category listing log).2 = log ++ ws ∧ length ws ≤ 1.
Proof.
  unfold us_listing.
  destruct (us_name_elem listing) as [name_elem |];
    [| no_request].
  destruct (truthy (clean_text (get_text name_elem)));
    [| no_request].
  unfold bind, ret; cbn [fst snd]. rewrite listing_email_fetched.
  eexists; split; [done |]. destruct (truthy_opt _); simpl; lia.
Qed.

Lemma ca_listing_requests category listing log :
  ∃ ws, (ca_listing category listing log).2 = log ++ ws ∧ length ws ≤ 1.
Proof.
  unfold ca_listing.
  destruct (ca_name_elem listing) as [name_elem |];
    [| no_request].
  destruct (truthy (clean_text (get_text name_elem)));
    [| no_request].
  unfold bind, ret; cbn [fst snd]. rewrite listing_email_fetched.
  eexists; split; [done |]. destruct (truthy_opt _); simpl; lia.
Qed.

Lemma yelp_listing_requests category base_url listing log :
  ∃ ws, (yelp_listing category base_url listing log).2 = log ++ ws ∧ length ws ≤ 1.
Proof.
  unfold yelp_listing.
  destruct (yelp_name_elem listing) as [name_elem |];
    [| no_request].
  destruct (truthy (clean_text (get_text name_elem)));
    [| no_request].
  destruct (yelp_business_link base_url name_elem) as [business_link |];
    [| no_request].
  unfold bind, ret, fetch_page; cbn [fst snd]. exists [business_link]. split; [done | simpl; lia].
Qed.

Lemma scrape_yellowpages_requests category rc log :
  ∃ ws, (scrape_yellowpages category rc log).2
        = log ++ yellowpages_search_url category rc :: ws ∧ length ws ≤ 15.
Proof.
  unfold scrape_yellowpages, yellowpages_search_url. destruct (is_canada rc).
  - unfold scrape_yellowpages_ca, bind, fetch_page; cbn [fst snd].
    destruct (requests_get log _) as [html |]; [destruct (truthy html) |].
    2, 3: exists []; split; [done | simpl; lia].
    match goal with
    | |- context [for_listings ?body ?ls [] ?log'] =>
        destruct (for_listings_requests body (ca_listing_requests category) ls [] log')
          as (ws & H1 & H2)
    end.
    exists ws. rewrite H1, <- app_assoc. split; [done |].
    rewrite length_take in H2. lia.
  - unfold scrape_yellowpages_us, bind, fetch_page; cbn [fst snd].
    destruct (requests_get log _) as [html |]; [destruct (truthy html) |].
    2, 3: exists []; split; [done | simpl; lia].
    match goal with
    | |- context [for_listings ?body ?ls [] ?log'] =>
        destruct (for_listings_requests body (us_listing_requests category) ls [] log')
          as (ws & H1 & H2)
    end.
    exists ws. rewrite H1, <- app_assoc. split; [done |].
    rewrite length_take in H2. lia.
Qed.

Lemma scrape_yelp_requests category location canada log :
  ∃ ws, (scrape_yelp category location canada log).2
        = log ++ yelp_search_url category location canada :: ws ∧ length ws ≤ 15.
Proof.
  unfold scrape_yelp, bind, fetch_page; cbn [fst snd].
  destruct (requests_get log _) as [html |]; [destruct (truthy html) |].
  2, 3: exists []; split; [done | simpl; lia].
  match goal with
  | |- context [for_listings ?body ?ls [] ?log'] =>
      destruct (for_listings_requests body
                  (yelp_listing_requests category (yelp_base_url canada)) ls [] log')
        as (ws & H1 & H2)
  end.
  exists ws. rewrite H1, <- app_assoc. split; [done |].
  rewrite length_take in H2. lia.
Qed.

Lemma category_block_requests category region_key rc log :
  ∃ ws, fetched (category_block category region_key rc) log = log ++ ws ∧
        1 ≤ length ws ≤ 32.
Proof.
  unfold fetched. rewrite category_block_unfold. cbn [snd].
  unfold fetched at 1. rewrite scrape_category_for_region_unfold.
  destruct (scrape_yellowpages_requests category rc log) as (ws1 & H1 & Hn1).
  destruct (scrape_yelp_requests category (name rc) (is_canada rc)
              (fetched (scrape_yellowpages category rc) log)) as (ws2 & H2 & Hn2).
  unfold fetched in *.
  destruct (length _ <? 10); cbn [snd].
  - eexists. rewrite H2, H1, <- app_assoc. split; [done |].
    simpl. rewrite length_app. simpl. lia.
  - eexists. rewrite H1. split; [done |]. simpl. lia.
Qed.

Lemma for_categories_requests region_key rc categories :
  ∀ all_results log,
    ∃ ws, fetched (for_categories categories region_key rc all_results) log = log ++ ws ∧
          length categories ≤ length ws ≤ 32 * length categories.
Proof.
  induction categories as [| category categories IH]; intros all_results log.
  - exists []. unfold fetched, ret; simpl. by rewrite app_nil_r.
  - unfold fetched in *. cbn [for_categories]. unfold bind.
    destruct (category_block_requests category region_key rc log) as (ws & H1 & Hn).
    unfold fetched in H1.
    match goal with
    | |- context [for_categories _ _ _ ?acc ?log'] =>
        destruct (IH acc log') as (ws' & H2 & Hn')
    end.
    exists (ws ++ ws'). rewrite H2, H1, <- app_assoc, length_app.
    split; [done | simpl; lia].
Qed.

(** X5. Each scraper makes at most 16 requests, its search page and at
    most one page per listing of the 15 it goes through.  So a category
    costs between 1 and 32 requests and [scrape_region] between 16 and
    512, all added at the end of the log. *)
Theorem request_bounds category region_key rc log :
  (∃ ws, fetched (category_block category region_key rc) log = log ++ ws ∧
         1 ≤ length ws ≤ 32) ∧
  (∃ ws, fetched (scrape_region region_key rc) log = log ++ ws ∧
         16 ≤ length ws ≤ 512).
Proof.
  split; [apply category_block_requests |].
  destruct (for_categories_requests region_key rc CATEGORIES [] log) as (ws & H & Hn).
  exists ws. split; [exact H |]. simpl in Hn. lia.
Qed.

(** ** The rows of a category and of a region *)


Lemma remove_duplicates_app l1 l2 :
  remove_duplicates (l1 ++ l2) = remove_duplicates l1 ++ keep_first_per_key l1 l2.
Proof. by rewrite !remove_duplicates_spec, keep_first_app. Qed.

(** X7. The records of the first source come first and none of them is
    displaced by a record of Yelp: the deduplicated YellowPages rows, cut
    at 10, are the beginning of the rows of the category. *)
Theorem first_source_first category region_key rc log :
  take 10 (remove_duplicates (result (scrape_yellowpages category rc) log))
  `prefix_of` result (scrape_category_for_region category region_key rc) log.
Proof.
  unfold result at 2. rewrite scrape_category_for_region_unfold.
  destruct (length _ <? 10) eqn:Hlt; cbn [fst]; [| done].
  apply Nat.ltb_lt in Hlt.
  pose proof (sublist_length _ _
                (remove_duplicates_sublist (result (scrape_yellowpages category rc) log)))
    as Hraw.
  rewrite remove_duplicates_app, take_app.
  eexists. reflexivity.
Qed.

Lemma category_block_inv category region_key rc log :
  Forall (λ r, Category r = category)
    (result (category_block category region_key rc) log) ∧
  1 ≤ length (result (category_block category region_key rc) log) ≤ 10.
Proof.
  unfold result at 1 2 3. rewrite category_block_unfold. cbn [fst].
  destruct (scrape_category_for_region_inv category region_key rc log) as [H Hlen].
  split.
  - apply Forall_app. split.
    + eapply Forall_impl; [exact H |]. by intros r [_ ?].
    + destruct (length _ <? 10); constructor; [done | constructor].
  - rewrite length_app. destruct (length _ <? 10) eqn:Hlt; simpl.
    + apply Nat.ltb_lt in Hlt. lia.
    + apply Nat.ltb_ge in Hlt. lia.
Qed.

Lemma for_categories_blocks region_key rc categories :
  ∀ all_results log,
    ∃ blocks,
      result (for_categories categories region_key rc all_results) log
      = all_results ++ concat blocks ∧
      Forall2 (λ category block,
                 Forall (λ r, Category r = category) block ∧
                 1 ≤ length block ≤ 10) categories blocks.
Proof.
  induction categories as [| category categories IH]; intros all_results log.
  - exists []. unfold result, ret; simpl. by rewrite app_nil_r.
  - unfold result in *. cbn [for_categories]. unfold bind.
    match goal with
    | |- context [for_categories _ _ _ ?acc ?log'] =>
        destruct (IH acc log') as (blocks & H1 & H2)
    end.
    exists ((category_block category region_key rc log).1 :: blocks).
    rewrite H1, <- app_assoc. split; [done |].
    constructor; [| done]. apply category_block_inv.
Qed.

Lemma blocks_length (categories : list string) (blocks : list (list Row)) :
  Forall2 (λ category block,
             Forall (λ r, Category r = category) block ∧
             1 ≤ length block ≤ 10) categories blocks →
  length categories ≤ length (concat blocks) ≤ 10 * length categories.
Proof.
  induction 1 as [| category block categories blocks [_ Hb] _ IH]; simpl; [lia |].
  rewrite length_app. lia.
Qed.

(** X8. The result of [scrape_region] is made of 16 blocks, one per
    category, in the order of [CATEGORIES]; all rows of a block carry
    the category of the block, and a block has between 1 and 10 rows. *)
Theorem region_grouped_by_category region_key rc log :
  ∃ blocks,
    result (scrape_region region_key rc) log = concat blocks ∧
    Forall2 (λ category block,
               Forall (λ r, Category r = category) block ∧
               1 ≤ length block ≤ 10) CATEGORIES blocks.
Proof. apply (for_categories_blocks region_key rc CATEGORIES [] log). Qed.

Lemma scrape_region_length region_key rc log :
  16 ≤ length (result (scrape_region region_key rc) log) ≤ 160.
Proof.
  destruct (for_categories_blocks region_key rc CATEGORIES [] log) as (blocks & H1 & H2).
  unfold scrape_region. rewrite H1. simpl.
  apply blocks_length in H2. simpl in H2. lia.
Qed.

(** X9. Whatever the web answers, [main] attempts exactly two writes,
    kansas_businesses.xlsx and then nunavut_businesses.xlsx, with the
    rows of [scrape_region] for Kansas and then, the log going on, for
    Nunavut.  Each holds between 16 and 160 rows, so the branch of
    [save_to_excel] for no data is never taken. *)
Theorem main_writes_two_files log :
  ∃ kansas nunavut,
    REGIONS = [("kansas", kansas); ("nunavut", nunavut)] ∧
    let kansas_data := result (scrape_region "kansas" kansas) log in
    let log1 := fetched (scrape_region "kansas" kansas) log in
    let nunavut_data := result (scrape_region "nunavut" nunavut) log1 in
    result main log
    = [("kansas_businesses.xlsx", kansas_data);
       ("nunavut_businesses.xlsx", nunavut_data)] ∧
    fetched main log = fetched (scrape_region "nunavut" nunavut) log1 ∧
    16 ≤ length kansas_data ≤ 160 ∧
    16 ≤ length nunavut_data ≤ 160.
Proof.
  eexists _, _. split; [reflexivity |]. cbv zeta.
  match goal with
  | |- context [result (scrape_region "kansas" ?k) log] => set (kansas := k)
  end.
  match goal with
  | |- context [result (scrape_region "nunavut" ?n) _] => set (nunavut := n)
  end.
  pose proof (scrape_region_length "kansas" kansas log) as Hk.
  pose proof (scrape_region_length "nunavut" nunavut
                (fetched (scrape_region "kansas" kansas) log)) as Hn.
  split; [| split; [| exact (conj Hk Hn)]].
  - unfold main, REGIONS, result, fetched in *. cbn [for_regions]. unfold bind, ret.
    fold kansas nunavut. cbn [fst snd].
    destruct ((scrape_region "kansas" kansas log).1) as [| r1 d1] eqn:E1;
      [cbn [length] in Hk; lia |].
    cbn [save_to_excel app].
    destruct ((scrape_region "nunavut" nunavut (scrape_region "kansas" kansas log).2).1)
      as [| r2 d2] eqn:E2; [cbn [length] in Hn; lia |].
    reflexivity.
  - unfold main, REGIONS, fetched. cbn [for_regions]. unfold bind, ret. reflexivity.
Qed.

End More.

(** X4 at the web where every request fails. *)
Lemma unreachable_sources_give_shortfall_witness :
  truthy_opt (requests_get (Runtime := Sample.offline) []
                (yellowpages_search_url "Cafes" Sample.kansas)) = false ∧
  truthy_opt (requests_get (Runtime := Sample.offline)
                ([] ++ [yellowpages_search_url "Cafes" Sample.kansas])
                (yelp_search_url "Cafes" (name Sample.kansas) (is_canada Sample.kansas)))
  = false ∧
  category_block (rt := Sample.offline) "Cafes" "kansas" Sample.kansas []
  = ([shortfall_row "Cafes"],
     [] ++ [yellowpages_search_url "Cafes" Sample.kansas;
            yelp_search_url "Cafes" (name Sample.kansas) (is_canada Sample.kansas)]).
Proof.
  split; [reflexivity |]. split; [reflexivity |].
  apply (unreachable_sources_give_shortfall (rt := Sample.offline)); reflexivity.
Defined.

(** ** Column widths *)

Section WidthFacts.
Context {cell : Type} (len_str : cell → nat).

Lemma max_length_fold (column : list cell) :
  ∀ m0,
    m0 ≤ fold_left (λ max_length c,
                      if max_length <? len_str c then len_str c else max_length)
                   column m0 ∧
    Forall (λ c, len_str c
                 ≤ fold_left (λ max_length c,
                                if max_length <? len_str c then len_str c else max_length)
                             column m0) column ∧
    (fold_left (λ max_length c,
                  if max_length <? len_str c then len_str c else max_length)
               column m0 = m0 ∨
     ∃ c, c ∈ column ∧
          fold_left (λ max_length c,
                       if max_length <? len_str c then len_str c else max_length)
                    column m0 = len_str c).
Proof.
  induction column as [| a column IH]; intros m0; cbn [fold_left].
  - split; [lia |]. split; [constructor | by left].
  - destruct (IH (if m0 <? len_str a then len_str a else m0)) as (H1 & H2 & H3).
    destruct (m0 <? len_str a) eqn:Hlt;
      [apply Nat.ltb_lt in Hlt | apply Nat.ltb_ge in Hlt].
    + split; [lia |]. split; [constructor; [lia | done] |].
      right. destruct H3 as [-> | (c & Hc & ->)].
      * exists a. split; [by left | done].
      * exists c. split; [by right | done].
    + split; [lia |]. split; [constructor; [lia | done] |].
      destruct H3 as [-> | (c & Hc & ->)]; [by left |].
      right. exists c. split; [by right | done].
Qed.

(** X10. The width given to a column is between 2 and 50.  It leaves 2
    characters beyond every cell, the header included, except where that
    would exceed 50; and it is no wider than the longest cell asks for:
    it is 2 or the width that one of the cells asks for. *)
Theorem column_width_bounds (column : list cell) :
  2 ≤ adjusted_width len_str column ≤ 50 ∧
  Forall (λ c, Nat.min (len_str c + 2) 50 ≤ adjusted_width len_str column) column ∧
  (adjusted_width len_str column = 2 ∨
   ∃ c, c ∈ column ∧ adjusted_width len_str column = Nat.min (len_str c + 2) 50).
Proof.
  unfold adjusted_width, max_length_of.
  destruct (max_length_fold column 0) as (_ & H2 & H3).
  split; [lia |]. split.
  - eapply Forall_impl; [exact H2 |]. intros c Hc. cbn beta in Hc. lia.
  - destruct H3 as [-> | (c & Hc & ->)]; [by left |].
    right. by exists c.
Qed.

End WidthFacts.

(** ** The quoted parts of the search URLs *)

Lemma hex_digit_safe (n : nat) : n < 16 → always_safe (hex_digit n) = true.
Proof.
  intros Hn. do 16 (destruct n as [| n]; [reflexivity |]). lia.
Qed.

Lemma quote_plus_chars (s : string) :
  Forall (λ c, url_safe c = true) (String.list_ascii_of_string (quote_plus s)).
Proof.
  induction s as [| c s IH]; cbn [quote_plus String.list_ascii_of_string].
  - constructor.
  - destruct (always_safe c) eqn:Hsafe.
    + cbn [String.list_ascii_of_string]. constructor; [| done].
      unfold url_safe. by rewrite Hsafe.
    + destruct (Ascii.eqb c " "%char).
      * cbn [String.list_ascii_of_string]. by constructor.
      * cbn [String.list_ascii_of_string].
        pose proof (nat_ascii_bounded c) as Hc.
        constructor; [done |].
        constructor.
        { unfold url_safe. rewrite hex_digit_safe; [done |].
          apply Nat.Div0.div_lt_upper_bound. lia. }
        constructor; [| done].
        unfold url_safe. rewrite hex_digit_safe; [done |].
        apply Nat.mod_upper_bound. lia.
Qed.

Lemma occurrences_app (c : ascii) (s1 s2 : string) :
  occurrences c (s1 +:+ s2) = occurrences c s1 + occurrences c s2.
Proof.
  induction s1 as [| a s1 IH]; simpl; [done |].
  rewrite IH. lia.
Qed.

Lemma occurrences_safe (c : ascii) (s : string) :
  url_safe c = false →
  Forall (λ a, url_safe a = true) (String.list_ascii_of_string s) →
  occurrences c s = 0.
Proof.
  intros Hc. induction s as [| a s IH];
    cbn [String.list_ascii_of_string occurrences]; [done |].
  intros [Ha Hs]%Forall_cons. rewrite (IH Hs).
  destruct (Ascii.eqb a c) eqn:Hac; [| done].
  apply Ascii.eqb_eq in Hac. congruence.
Qed.

Lemma occurrences_quote_plus (c : ascii) (s : string) :
  url_safe c = false → occurrences c (quote_plus s) = 0.
Proof. intros Hc. apply occurrences_safe, quote_plus_chars. exact Hc. Qed.

(** X11. Whatever the category and the location hold, the search URLs
    keep their shape.  The URL of YellowPages.com and the URL of Yelp
    hold exactly one question mark, one ampersand and two equals signs,
    the marks of their two query parameters, and no blank and no hash
    sign.  The URL of YellowPages.ca holds exactly its 7 slashes, and no
    question mark, ampersand, hash sign or blank.  So a category such as
    "Clothing & Apparel" adds no parameter and no path segment. *)
Theorem search_urls_well_formed (category location : string) (canada : bool) :
  (occurrences "?" (us_search_url category location) = 1 ∧
   occurrences "&" (us_search_url category location) = 1 ∧
   occurrences "=" (us_search_url category location) = 2 ∧
   occurrences "#" (us_search_url category location) = 0 ∧
   occurrences " " (us_search_url category location) = 0) ∧
  (occurrences "/" (ca_search_url category location) = 7 ∧
   occurrences "?" (ca_search_url category location) = 0 ∧
   occurrences "&" (ca_search_url category location) = 0 ∧
   occurrences "#" (ca_search_url category location) = 0 ∧
   occurrences " " (ca_search_url category location) = 0) ∧
  (occurrences "?" (yelp_search_url category location canada) = 1 ∧
   occurrences "&" (yelp_search_url category location canada) = 1 ∧
   occurrences "=" (yelp_search_url category location canada) = 2 ∧
   occurrences "#" (yelp_search_url category location canada) = 0 ∧
   occurrences " " (yelp_search_url category location canada) = 0).
Proof.
  unfold us_search_url, ca_search_url, yelp_search_url, yelp_base_url.
  destruct canada;
    rewrite !occurrences_app, !occurrences_quote_plus by reflexivity;
    repeat split; reflexivity.
Qed.
